(** * react-view-import: the load-trigger logic of [UILazyInView]

    A shallow embedding of [createLoadMap] (createLoadMap.ts) and of the
    [UILazyInView] component (its [onChange] handler, the promise
    continuation that stores the component, and what it renders), followed by
    the properties of the load-trigger decision.

    A mounted instance is a state machine.  Its state is the React state
    [Comp], the two flag props of the latest render, and the promises that
    [importer()] has returned so far.  It is driven by the callbacks that the
    surrounding runtime delivers: the intersection observer calling
    [onChange], the parent re-rendering with new flags, and promises being
    settled.  Nothing is assumed about which callbacks the observer delivers,
    nor how often: the properties hold for every sequence of them. *)

From stdpp Require Import gmap strings list fin_maps.

Set Default Proof Using "Type".
Open Scope string_scope.

(** ** JavaScript values used by the component *)

(** [loadOnMount?: boolean]: an optional boolean prop is [undefined] when the
    caller omits it. *)
Definition OptionalBoolean := option bool.

(** The coercion [!!x] on an optional boolean. *)
Definition truthy (x : OptionalBoolean) : bool :=
  match x with
  | Some b => b
  | None => false
  end.

(** ** types.ts *)

(** Modelled from the spec: the enum [LazyLoadState] of types.ts, which the
    sources import but which is not among them.  Its three members are those
    the sources use and the README lists; they are pairwise distinct keys. *)
Inductive LazyLoadState : Set :=
  | DEFAULT
  | LOADED_ON_MOUNT
  | LAZY_ON_CONDITION.

#[global] Instance LazyLoadState_eq_dec : EqDecision LazyLoadState.
Proof. solve_decision. Defined.

#[global] Instance LazyLoadState_countable : Countable LazyLoadState.
Proof.
  refine (inj_countable'
    (λ k, match k with DEFAULT => 0 | LOADED_ON_MOUNT => 1 | LAZY_ON_CONDITION => 2 end)
    (λ n, match n with 0 => DEFAULT | 1 => LOADED_ON_MOUNT | _ => LAZY_ON_CONDITION end) _).
  by intros [].
Defined.

(** ** createLoadMap.ts *)

Record ILazyInviewLoadMap : Set := {
  loadByDefault : OptionalBoolean;
  loadOnMount : OptionalBoolean;
  loadOnCondition : OptionalBoolean;
}.

(** The object literal with three computed keys, inserted in source order. *)
Definition createLoadMap (i : ILazyInviewLoadMap) : gmap LazyLoadState bool :=
  <[LAZY_ON_CONDITION := truthy (loadOnCondition i)]>
    (<[DEFAULT := truthy (loadByDefault i)]>
       (<[LOADED_ON_MOUNT := truthy (loadOnMount i)]> ∅)).

(** ** UILazyInView *)

Section UILazyInView.

(** [React.ComponentType<T>]: components are opaque to the controller. *)
Context {Component : Type}.

(** The value held by [useState<React.ComponentType<T> | null>(null)].
    [mod[exportName]] is [undefined] when the module has no such export, and
    [setComp] stores it as it is. *)
Inductive CompValue : Type :=
  | Null
  | Undefined
  | Loaded (c : Component).

(** [!Comp]: a component is a function or a class, hence truthy; [null] and
    [undefined] are falsy. *)
Definition not_Comp (v : CompValue) : bool :=
  match v with
  | Loaded _ => false
  | Null | Undefined => true
  end.

(** The props that take part in the load decision.  [importer] is
    represented by the promises it returns, [onInView] by whether the caller
    supplied it; [componentProps], [threshold], [placeholder], [forwardRef]
    and [rootMargin] are forwarded untouched. *)
Record UILazyInViewProps : Type := {
  exportName : string;
  onInView : bool;
  loadState : option LazyLoadState;
}.

(** The destructuring default [loadState = LazyLoadState.DEFAULT]. *)
Definition loadState_or_default (p : UILazyInViewProps) : LazyLoadState :=
  match loadState p with
  | Some s => s
  | None => DEFAULT
  end.

(** A promise returned by one call of [importer()]. *)
Inductive PromiseStatus : Set :=
  | Pending
  | Settled.

Record State : Type := {
  Comp : CompValue;
  (** the flag props of the latest render *)
  flag_loadOnMount : OptionalBoolean;
  flag_loadOnCondition : OptionalBoolean;
  (** one entry per call of [importer()], in call order *)
  promises : list PromiseStatus;
  (** how often [onInView()] has been called *)
  onInView_calls : nat;
  (** rejections that reached the runtime without a handler *)
  unhandled_rejections : nat;
}.

Definition importer_calls (s : State) : nat := length (promises s).

(** The state right after the first render: [useState(null)], nothing called. *)
Definition mount (flagMount flagCondition : OptionalBoolean) : State :=
  {| Comp := Null;
     flag_loadOnMount := flagMount;
     flag_loadOnCondition := flagCondition;
     promises := [];
     onInView_calls := 0;
     unhandled_rejections := 0 |}.

(** [importer()]: a new pending promise. *)
Definition call_importer (s : State) : State :=
  {| Comp := Comp s;
     flag_loadOnMount := flag_loadOnMount s;
     flag_loadOnCondition := flag_loadOnCondition s;
     promises := promises s ++ [Pending];
     onInView_calls := onInView_calls s;
     unhandled_rejections := unhandled_rejections s |}.

Definition call_onInView (s : State) : State :=
  {| Comp := Comp s;
     flag_loadOnMount := flag_loadOnMount s;
     flag_loadOnCondition := flag_loadOnCondition s;
     promises := promises s;
     onInView_calls := S (onInView_calls s);
     unhandled_rejections := unhandled_rejections s |}.

(** [const shouldLoad = loadMap[loadState]], with the load map built from the
    callback's argument, the current flags and the current [Comp]. *)
Definition shouldLoad (p : UILazyInViewProps) (inView : bool) (s : State) : option bool :=
  createLoadMap
    {| loadByDefault := Some (inView && not_Comp (Comp s));
       loadOnMount := flag_loadOnMount s;
       loadOnCondition := flag_loadOnCondition s |}
  !! loadState_or_default p.

(** The [onChange] handler passed to [InView]. *)
Definition onChange (p : UILazyInViewProps) (inView : bool) (s : State) : State :=
  let s1 := if truthy (shouldLoad p inView s) then call_importer s else s in
  if inView && onInView p then call_onInView s1 else s1.

(** [setComp(() => mod[exportName])], where [exports] holds the own properties
    of the resolved module [mod]. *)
Definition setComp_export (p : UILazyInViewProps) (exports : gmap string Component)
    (s : State) : State :=
  {| Comp := match exports !! exportName p with
             | Some c => Loaded c
             | None => Undefined
             end;
     flag_loadOnMount := flag_loadOnMount s;
     flag_loadOnCondition := flag_loadOnCondition s;
     promises := promises s;
     onInView_calls := onInView_calls s;
     unhandled_rejections := unhandled_rejections s |}.

Definition settle (i : nat) (s : State) : State :=
  {| Comp := Comp s;
     flag_loadOnMount := flag_loadOnMount s;
     flag_loadOnCondition := flag_loadOnCondition s;
     promises := <[i := Settled]> (promises s);
     onInView_calls := onInView_calls s;
     unhandled_rejections := unhandled_rejections s |}.

(** [.then(onFulfilled)] has no rejection handler: the derived promise
    rejects and nothing handles it. *)
Definition report_unhandled (s : State) : State :=
  {| Comp := Comp s;
     flag_loadOnMount := flag_loadOnMount s;
     flag_loadOnCondition := flag_loadOnCondition s;
     promises := promises s;
     onInView_calls := onInView_calls s;
     unhandled_rejections := S (unhandled_rejections s) |}.

(** What the runtime can deliver to a mounted instance. *)
Inductive Event : Type :=
  (** the intersection observer calls [onChange(inView)] *)
  | OnChange (inView : bool)
  (** the parent renders the instance again with these flags *)
  | Rerender (flagMount flagCondition : OptionalBoolean)
  (** the promise of the [i]-th [importer()] call fulfils with the module [exports] *)
  | Fulfil (i : nat) (exports : gmap string Component)
  (** the promise of the [i]-th [importer()] call rejects *)
  | Reject (i : nat).

Definition step (p : UILazyInViewProps) (s : State) (e : Event) : State :=
  match e with
  | OnChange inView => onChange p inView s
  | Rerender fm fc =>
      {| Comp := Comp s;
         flag_loadOnMount := fm;
         flag_loadOnCondition := fc;
         promises := promises s;
         onInView_calls := onInView_calls s;
         unhandled_rejections := unhandled_rejections s |}
  | Fulfil i exports =>
      match promises s !! i with
      | Some Pending => setComp_export p exports (settle i s)
      | _ => s
      end
  | Reject i =>
      match promises s !! i with
      | Some Pending => report_unhandled (settle i s)
      | _ => s
      end
  end.

Definition run (p : UILazyInViewProps) (s : State) (evs : list Event) : State :=
  foldl (step p) s evs.

(** What the render function shows inside the wrapper [div]:
    [{!Comp && placeholder}] and [{Comp && <Comp {...componentProps} />}]. *)
Record Rendered : Type := {
  shows_placeholder : bool;
  shows_component : option Component;
}.

Definition render (s : State) : Rendered :=
  {| shows_placeholder := not_Comp (Comp s);
     shows_component := match Comp s with
                        | Loaded c => Some c
                        | Null | Undefined => None
                        end |}.

(** ** Kinds of events *)

Definition is_OnChange (e : Event) : bool :=
  match e with OnChange _ => true | _ => false end.

Definition is_entered (e : Event) : bool :=
  match e with OnChange true => true | _ => false end.

End UILazyInView.

Arguments CompValue : clear implicits.
Arguments State : clear implicits.
Arguments Event : clear implicits.
Arguments Rendered : clear implicits.

(** The load decision in closed form: the entry of the load map that the
    configured strategy selects. *)
Definition load_decision {Component : Type} (st : LazyLoadState) (inView : bool)
    (flagMount flagCondition : OptionalBoolean) (c : CompValue Component) : bool :=
  match st with
  | DEFAULT => inView && not_Comp c
  | LOADED_ON_MOUNT => truthy flagMount
  | LAZY_ON_CONDITION => truthy flagCondition
  end.

(** Following the spec's words, not the source: the strategy derived from the
    flags when [loadState] is omitted ([loadOnMount] gives [LOADED_ON_MOUNT];
    else a configured [loadOnCondition] gives [LAZY_ON_CONDITION]; else
    [DEFAULT]).  It is compared below with [loadState_or_default], which is
    what the component computes. *)
Definition derived_from_flags (flagMount flagCondition : OptionalBoolean) : LazyLoadState :=
  if truthy flagMount then LOADED_ON_MOUNT
  else if truthy flagCondition then LAZY_ON_CONDITION
  else DEFAULT.

(** How many of the delivered callbacks report that the element entered view. *)
Definition entered_count {Component : Type} (evs : list (Event Component)) : nat :=
  length (List.filter is_entered evs).

(** No render of the trace passes a truthy [loadOnCondition]. *)
Definition condition_stays_false {Component : Type} (evs : list (Event Component)) : bool :=
  forallb (λ e, match e with
                | Rerender _ flagCondition => negb (truthy flagCondition)
                | _ => true
                end) evs.

(** ** Concrete instances used in examples *)

Module Examples.

Definition props (st : option LazyLoadState) : UILazyInViewProps :=
  {| exportName := "default"; onInView := true; loadState := st |}.

(** A module whose default export is the component ["CompX"]. *)
Definition moduleX : gmap string string := {[ "default" := "CompX" ]}.

(** A module with a named export only. *)
Definition moduleNamed : gmap string string := {[ "Chart" := "CompX" ]}.

Definition start (flagMount flagCondition : OptionalBoolean) : State string :=
  mount flagMount flagCondition.

End Examples.

(** ** mergeRefs.ts *)

(** [OptionalRef = Ref<any> | undefined].  A ref is [undefined], [null], a
    callback ref (a function, named here by a number) or a ref object (a
    [{current}] cell, named by its address).  Two occurrences of the same
    number are the same function or the same cell. *)
Inductive OptionalRef : Set :=
  | RefUndefined
  | RefNull
  | RefCallback (f : nat)
  | RefObject (r : nat).

#[global] Instance OptionalRef_eq_dec : EqDecision OptionalRef.
Proof. solve_decision. Defined.

(** [!ref] is false for functions and objects only. *)
Definition is_ref (ref : OptionalRef) : bool :=
  match ref with
  | RefUndefined | RefNull => false
  | RefCallback _ | RefObject _ => true
  end.

Section MergeRefs.

(** [instance: any | null]: [Node] is what a ref can point to, [None] is
    [null]. *)
Context {Node : Type}.

(** The memory that a ref updater acts on: the [current] field of every ref
    object, and the calls made to callback refs, oldest first.  A callback
    ref is opaque: its call is recorded, and it is taken to return. *)
Record RefStore : Type := {
  current : gmap nat (option Node);
  called : list (nat * option Node);
}.

(** The body of the [forEach] callback, for one [ref]. *)
Definition update_ref (instance : option Node) (st : RefStore) (ref : OptionalRef)
    : RefStore :=
  match ref with
  | RefUndefined | RefNull => st
  | RefCallback f =>
      {| current := current st; called := called st ++ [(f, instance)] |}
  | RefObject r =>
      {| current := <[r := instance]> (current st); called := called st |}
  end.

(** [RefUpdater = (instance: any | null) => void]. *)
Definition RefUpdater : Type := option Node → RefStore → RefStore.

Definition mergeRefs (refs : list OptionalRef) : RefUpdater :=
  λ instance st, foldl (update_ref instance) st refs.

(** The calls that one update makes: one per callback ref, in list order. *)
Definition callbacks_of (refs : list OptionalRef) (instance : option Node)
    : list (nat * option Node) :=
  omap (λ ref, match ref with
               | RefCallback f => Some (f, instance)
               | _ => None
               end) refs.

(** The updater that [UILazyInView] puts on its wrapper [div]:
    [mergeRefs([ref, forwardRef])], with [ref] the one [InView] hands to its
    render function. *)
Definition wrapper_ref (ref forwardRef : OptionalRef) : RefUpdater :=
  mergeRefs [ref; forwardRef].

End MergeRefs.

Arguments RefStore : clear implicits.
Arguments RefUpdater : clear implicits.

(** ** Measures of a trace *)

(** How many observer callbacks a trace delivers. *)
Definition callback_count {Component : Type} (evs : list (Event Component)) : nat :=
  length (List.filter is_OnChange evs).

(** Every render of the trace passes a truthy [loadOnMount]. *)
Definition mount_flag_stays_true {Component : Type} (evs : list (Event Component)) : bool :=
  forallb (λ e, match e with
                | Rerender flagMount _ => truthy flagMount
                | _ => true
                end) evs.

(** Every render of the trace passes a truthy [loadOnCondition]. *)
Definition condition_stays_true {Component : Type} (evs : list (Event Component)) : bool :=
  forallb (λ e, match e with
                | Rerender _ flagCondition => truthy flagCondition
                | _ => true
                end) evs.

Definition is_Rerender {Component : Type} (e : Event Component) : bool :=
  match e with Rerender _ _ => true | _ => false end.

(** The trace with the parent's re-renders left out. *)
Definition without_rerenders {Component : Type} (evs : list (Event Component))
    : list (Event Component) :=
  List.filter (λ e, negb (is_Rerender e)) evs.

(** Everything of a state but the two flags. *)
Definition observable {Component : Type} (s : State Component)
    : CompValue Component * list PromiseStatus * nat * nat :=
  (Comp s, promises s, onInView_calls s, unhandled_rejections s).

(** An input of [createLoadMap] with every omitted field written as the
    boolean it is coerced to. *)
Definition with_booleans (i : ILazyInviewLoadMap) : ILazyInviewLoadMap :=
  {| loadByDefault := Some (truthy (loadByDefault i));
     loadOnMount := Some (truthy (loadOnMount i));
     loadOnCondition := Some (truthy (loadOnCondition i)) |}.

(** * Properties *)

(** ** The load map *)

Section LoadMap.

Lemma createLoadMap_lookup (i : ILazyInviewLoadMap) (k : LazyLoadState) :
  createLoadMap i !! k =
  Some (match k with
        | DEFAULT => truthy (loadByDefault i)
        | LOADED_ON_MOUNT => truthy (loadOnMount i)
        | LAZY_ON_CONDITION => truthy (loadOnCondition i)
        end).
Proof.
  unfold createLoadMap.
  destruct k; by simplify_map_eq.
Qed.

Lemma createLoadMap_size (i : ILazyInviewLoadMap) : size (createLoadMap i) = 3.
Proof.
  unfold createLoadMap.
  rewrite !map_size_insert_None; [by rewrite map_size_empty | by simplify_map_eq ..].
Qed.

Lemma createLoadMap_dom (i : ILazyInviewLoadMap) :
  dom (createLoadMap i) = ({[LOADED_ON_MOUNT; DEFAULT; LAZY_ON_CONDITION]} : gset LazyLoadState).
Proof.
  unfold createLoadMap. rewrite !dom_insert_L, dom_empty_L. set_solver.
Qed.

End LoadMap.

(** C5: [createLoadMap] is a function of its three boolean inputs alone.  For
    every triple it returns a map with exactly three entries, which sends
    [LOADED_ON_MOUNT] to [loadOnMount], [DEFAULT] to [loadByDefault] and
    [LAZY_ON_CONDITION] to [loadOnCondition]; on the all-false triple every
    entry is [false]. *)
Theorem createLoadMap_three_entries (forceMount visibleDefault conditionMet : bool) :
  let m := createLoadMap {| loadByDefault := Some visibleDefault;
                            loadOnMount := Some forceMount;
                            loadOnCondition := Some conditionMet |} in
  m !! LOADED_ON_MOUNT = Some forceMount
  ∧ m !! DEFAULT = Some visibleDefault
  ∧ m !! LAZY_ON_CONDITION = Some conditionMet
  ∧ size m = 3
  ∧ dom m = ({[LOADED_ON_MOUNT; DEFAULT; LAZY_ON_CONDITION]} : gset LazyLoadState)
  ∧ (forceMount = false → visibleDefault = false → conditionMet = false →
     ∀ k, m !! k = Some false).
Proof.
  intros m. subst m.
  split_and!.
  - by rewrite createLoadMap_lookup.
  - by rewrite createLoadMap_lookup.
  - by rewrite createLoadMap_lookup.
  - apply createLoadMap_size.
  - apply createLoadMap_dom.
  - intros -> -> -> k. rewrite createLoadMap_lookup. by destruct k.
Qed.

(** ** One step of the controller *)

Section Steps.

Context {Component : Type}.
Implicit Types (p : UILazyInViewProps) (s : State Component)
  (e : Event Component) (evs : list (Event Component)).

Lemma shouldLoad_decision p inView s :
  shouldLoad p inView s =
  Some (load_decision (loadState_or_default p) inView
          (flag_loadOnMount s) (flag_loadOnCondition s) (Comp s)).
Proof.
  unfold shouldLoad. rewrite createLoadMap_lookup.
  by destruct (loadState_or_default p).
Qed.

Lemma importer_calls_call_importer s :
  importer_calls (call_importer s) = S (importer_calls s).
Proof. unfold importer_calls. simpl. rewrite length_app. simpl. lia. Qed.

Lemma importer_calls_onChange p inView s :
  importer_calls (onChange p inView s) =
  importer_calls s +
  (if load_decision (loadState_or_default p) inView
        (flag_loadOnMount s) (flag_loadOnCondition s) (Comp s)
   then 1 else 0).
Proof.
  unfold onChange. rewrite shouldLoad_decision. simpl.
  unfold importer_calls.
  destruct (load_decision _ _ _ _ _), (inView && onInView p);
    simpl; rewrite ?length_app; simpl; lia.
Qed.

Lemma importer_calls_settled p s e :
  is_OnChange e = false → importer_calls (step p s e) = importer_calls s.
Proof.
  destruct e as [v|fm fc|i exports|i]; simpl; try done; intros _.
  - destruct (promises s !! i) as [[]|]; try done.
    unfold importer_calls. simpl. by rewrite length_insert.
  - destruct (promises s !! i) as [[]|]; try done.
    unfold importer_calls. simpl. by rewrite length_insert.
Qed.

Lemma importer_calls_step p s e :
  importer_calls (step p s e) =
  importer_calls s +
  match e with
  | OnChange inView =>
      if load_decision (loadState_or_default p) inView
           (flag_loadOnMount s) (flag_loadOnCondition s) (Comp s)
      then 1 else 0
  | _ => 0
  end.
Proof.
  destruct e as [v|fm fc|i exports|i].
  - apply importer_calls_onChange.
  - rewrite importer_calls_settled by done. lia.
  - rewrite importer_calls_settled by done. lia.
  - rewrite importer_calls_settled by done. lia.
Qed.

Lemma run_snoc p s evs e : run p s (evs ++ [e]) = step p (run p s evs) e.
Proof. unfold run. by rewrite foldl_app. Qed.

Lemma run_cons p s e evs : run p s (e :: evs) = run p (step p s e) evs.
Proof. done. Qed.


Lemma importer_calls_without_onChange p s evs :
  existsb is_OnChange evs = false →
  importer_calls (run p s evs) = importer_calls s.
Proof.
  revert s. induction evs as [|e evs IH]; intros s H; [done|].
  simpl in H. apply orb_false_iff in H as [He Hrest].
  rewrite run_cons, IH by done. by apply importer_calls_settled.
Qed.

End Steps.

(** ** Where the importer is called *)

Section Importer.

Context {Component : Type}.
Implicit Types (p : UILazyInViewProps) (s : State Component)
  (e : Event Component) (evs : list (Event Component)).

(** C10: for every configuration the importer is called from the [onChange]
    handler only.  A trace without observer callbacks calls it zero times,
    and a step calls it exactly when it is an [onChange] callback whose
    load-map entry, computed from the callback's argument, the current
    flags, the configured [loadState] and the current [Comp], is true. *)
Theorem importer_only_from_onChange p :
  (∀ flagMount flagCondition evs,
      existsb is_OnChange evs = false →
      importer_calls (run p (mount flagMount flagCondition) evs) = 0)
  ∧ (∀ s e,
      importer_calls (step p s e) =
      importer_calls s +
      match e with
      | OnChange inView =>
          if load_decision (loadState_or_default p) inView
               (flag_loadOnMount s) (flag_loadOnCondition s) (Comp s)
          then 1 else 0
      | _ => 0
      end).
Proof.
  split.
  - intros fm fc evs H. by rewrite importer_calls_without_onChange.
  - apply importer_calls_step.
Qed.

End Importer.

(** ** The [onInView] notification *)

Section Notification.

Context {Component : Type}.
Implicit Types (p : UILazyInViewProps) (s : State Component)
  (e : Event Component) (evs : list (Event Component)).

Lemma onInView_calls_onChange p inView s :
  onInView_calls (onChange p inView s) =
  onInView_calls s + (if inView && onInView p then 1 else 0).
Proof.
  unfold onChange.
  destruct (truthy (shouldLoad p inView s)), (inView && onInView p); simpl; lia.
Qed.

Lemma onInView_calls_step p s e :
  onInView_calls (step p s e) =
  onInView_calls s + (if is_entered e && onInView p then 1 else 0).
Proof.
  destruct e as [v|fm fc|i exports|i]; simpl.
  - rewrite onInView_calls_onChange. by destruct v.
  - lia.
  - destruct (promises s !! i) as [[]|]; simpl; lia.
  - destruct (promises s !! i) as [[]|]; simpl; lia.
Qed.

Lemma onInView_calls_run p s evs :
  onInView_calls (run p s evs) =
  onInView_calls s + (if onInView p then entered_count evs else 0).
Proof.
  revert s. induction evs as [|e evs IH]; intros s.
  - unfold entered_count. simpl. destruct (onInView p); lia.
  - rewrite run_cons, IH, onInView_calls_step.
    unfold entered_count. simpl.
    destruct (is_entered e), (onInView p); simpl; lia.
Qed.

End Notification.

(** C7 on the code: the handler calls [onInView] at every callback that
    reports the element in view, whatever the strategy, the flags and
    [Comp], and whether or not it also calls the importer; it keeps no
    record of having notified.  When the observer reports the element in
    view twice, [onInView] is called twice, not once. *)
Lemma onInView_called_at_every_entered_callback :
  (∀ (name : string) (st : option LazyLoadState) (s : State string),
     onInView_calls
       (onChange {| exportName := name; onInView := true; loadState := st |} true s)
     = S (onInView_calls s))
  ∧ onInView_calls
      (run (Examples.props None) (Examples.start None None)
         [OnChange true; OnChange true]) = 2
  ∧ onInView_calls
      (run (Examples.props (Some LOADED_ON_MOUNT)) (Examples.start (Some true) None)
         [OnChange true; Fulfil 0 Examples.moduleX; OnChange true]) = 2
  ∧ onInView_calls
      (run (Examples.props (Some LAZY_ON_CONDITION)) (Examples.start None (Some false))
         [OnChange true; Rerender None (Some true); OnChange true]) = 2.
Proof.
  split_and!; try done.
  intros name st s. rewrite onInView_calls_onChange. simpl. lia.
Qed.

(** No observer callback, no retrieval: a forced-on-mount instance that only
    sees a re-render and a stray settlement never calls the importer. *)
Lemma importer_only_from_onChange_witness :
  importer_calls
    (run (Examples.props (Some LOADED_ON_MOUNT)) (Examples.start (Some true) None)
       [Rerender (Some true) (Some true); Reject 0]) = 0.
Proof.
  exact (proj1 (importer_only_from_onChange (Component := string)
                  (Examples.props (Some LOADED_ON_MOUNT)))
           (Some true) None [Rerender (Some true) (Some true); Reject 0] eq_refl).
Defined.

(** ** Storing and rendering the export *)

Section ExportLookup.

Context {Component : Type}.
Implicit Types (p : UILazyInViewProps) (s : State Component)
  (exports : gmap string Component).

Lemma Comp_step_Fulfil p s i exports :
  promises s !! i = Some Pending →
  Comp (step p s (Fulfil i exports)) =
  match exports !! exportName p with
  | Some c => Loaded c
  | None => Undefined
  end.
Proof. intros H. simpl. by rewrite H. Qed.

(** C6: when a pending retrieval resolves with a module that has the key
    ["default"] and [exportName] is ["default"], [Comp] becomes
    [mod["default"]] and that component is rendered.  When the module has
    no key [exportName], [Comp] holds no component: the placeholder is
    rendered and no component is. *)
Theorem export_lookup p s i exports :
  promises s !! i = Some Pending →
  (∀ c, exportName p = "default" → exports !! "default" = Some c →
        Comp (step p s (Fulfil i exports)) = Loaded c
        ∧ shows_component (render (step p s (Fulfil i exports))) = Some c)
  ∧ (exports !! exportName p = None →
        not_Comp (Comp (step p s (Fulfil i exports))) = true
        ∧ render (step p s (Fulfil i exports))
          = {| shows_placeholder := true; shows_component := None |}).
Proof.
  intros Hpending. split.
  - intros c Hname Hc. unfold render.
    rewrite Comp_step_Fulfil, Hname, Hc by done. done.
  - intros Hnone. unfold render.
    rewrite Comp_step_Fulfil, Hnone by done. done.
Qed.

End ExportLookup.

(** Scenario A of the spec: the element enters view, the import resolves
    with [{default: CompX}] and [CompX] is stored; had the module only a named
    export, the placeholder would stay. *)
Lemma export_lookup_witness :
  let s := run (Examples.props None) (Examples.start None None)
             [OnChange false; OnChange true] in
  promises s !! 0 = Some Pending
  ∧ Comp (step (Examples.props None) s (Fulfil 0 Examples.moduleX)) = Loaded "CompX"
  ∧ render (step (Examples.props None) s (Fulfil 0 Examples.moduleNamed))
    = {| shows_placeholder := true; shows_component := None |}.
Proof.
  intros s. split_and!.
  - reflexivity.
  - exact (proj1 (proj1 (export_lookup (Examples.props None) s 0 Examples.moduleX eq_refl)
                    "CompX" eq_refl eq_refl)).
  - exact (proj2 (proj2 (export_lookup (Examples.props None) s 0 Examples.moduleNamed eq_refl)
                    eq_refl)).
Defined.

(** ** The default strategy *)

Section DefaultStrategy.

Context {Component : Type}.
Implicit Types (p : UILazyInViewProps) (s : State Component)
  (e : Event Component) (evs : list (Event Component)).

(** A step that is not an observer callback leaves a state untouched when
    no promise is pending. *)
Lemma step_nothing_pending p s e :
  is_OnChange e = false →
  (∀ i, promises s !! i ≠ Some Pending) →
  promises (step p s e) = promises s ∧ Comp (step p s e) = Comp s.
Proof.
  intros He Hnone. destruct e as [v|fm fc|i exports|i]; simpl; try done.
  - specialize (Hnone i). by destruct (promises s !! i) as [[]|].
  - specialize (Hnone i). by destruct (promises s !! i) as [[]|].
Qed.

Lemma run_nothing_pending p s evs :
  existsb is_OnChange evs = false →
  (∀ i, promises s !! i ≠ Some Pending) →
  promises (run p s evs) = promises s ∧ Comp (run p s evs) = Comp s.
Proof.
  revert s. induction evs as [|e evs IH]; intros s H Hnone; [done|].
  simpl in H. apply orb_false_iff in H as [He Hrest].
  destruct (step_nothing_pending p s e He Hnone) as [Hp Hc].
  rewrite run_cons.
  destruct (IH (step p s e) Hrest) as [IHp IHc].
  - intros i. by rewrite Hp.
  - by rewrite IHp, IHc.
Qed.

(** Under the default strategy a stored component is final once no
    retrieval is in flight: no callback calls the importer again and
    nothing replaces the component. *)
Lemma default_loaded_is_terminal p s c evs :
  loadState_or_default p = DEFAULT →
  Comp s = Loaded c →
  (∀ i, promises s !! i ≠ Some Pending) →
  Comp (run p s evs) = Loaded c
  ∧ importer_calls (run p s evs) = importer_calls s.
Proof.
  intros Hd. revert s. induction evs as [|e evs IH]; intros s Hc Hnone; [done|].
  rewrite run_cons.
  assert (promises (step p s e) = promises s ∧ Comp (step p s e) = Comp s)
    as [Hp' Hc'].
  { destruct e as [v|fm fc|i exports|i]; try by apply step_nothing_pending.
    simpl. unfold onChange. rewrite shouldLoad_decision, Hd, Hc. simpl.
    rewrite andb_false_r. simpl. by destruct (v && onInView p). }
  destruct (IH (step p s e)) as [IHc IHn].
  - congruence.
  - intros i. by rewrite Hp'.
  - split; [done|]. rewrite IHn. unfold importer_calls. by rewrite Hp'.
Qed.

End DefaultStrategy.

(** ** The forced-on-mount strategy *)

Section ForcedOnMount.

Context {Component : Type}.
Implicit Types (p : UILazyInViewProps) (s : State Component)
  (e : Event Component) (evs : list (Event Component)).

(** C2, as the code has it: with [loadState = LOADED_ON_MOUNT] and
    [loadOnMount = true] nothing is retrieved at creation itself, nor as
    long as no observer callback is delivered; the first observer callback
    calls the importer, whether it reports the element in view or not. *)
Theorem forced_on_mount_first_callback p flagCondition :
  loadState p = Some LOADED_ON_MOUNT →
  importer_calls (mount (Component := Component) (Some true) flagCondition) = 0
  ∧ (∀ evs, existsb is_OnChange evs = false →
       importer_calls (run p (mount (Some true) flagCondition) evs) = 0)
  ∧ (∀ inView,
       importer_calls
         (run (Component := Component) p (mount (Some true) flagCondition)
            [OnChange inView]) = 1).
Proof.
  intros Hst. split_and!.
  - done.
  - intros evs H. by rewrite importer_calls_without_onChange.
  - intros inView. unfold run. simpl.
    rewrite importer_calls_onChange. unfold loadState_or_default. by rewrite Hst.
Qed.

End ForcedOnMount.

(** Scenario B of the spec run on the code: a created instance without any
    observer callback has not retrieved anything; the callback reporting
    [inView = false] retrieves. *)
Lemma forced_on_mount_first_callback_witness :
  importer_calls
    (run (Examples.props (Some LOADED_ON_MOUNT)) (Examples.start (Some true) None)
       [OnChange false]) = 1.
Proof.
  exact (proj2 (proj2 (forced_on_mount_first_callback (Component := string)
                         (Examples.props (Some LOADED_ON_MOUNT)) None eq_refl)) false).
Defined.

(** C2 as stated fails: creation alone, with no observer callback, calls the
    importer zero times, not once. *)
Lemma forced_on_mount_not_at_creation :
  ¬ (∀ (p : UILazyInViewProps) (flagCondition : OptionalBoolean),
       loadState p = Some LOADED_ON_MOUNT →
       importer_calls (run p (Examples.start (Some true) flagCondition) []) = 1).
Proof.
  intros H.
  specialize (H (Examples.props (Some LOADED_ON_MOUNT)) None eq_refl).
  discriminate H.
Qed.

(** ** The condition-gated strategy *)

Section ConditionGated.

Context {Component : Type}.
Implicit Types (p : UILazyInViewProps) (s : State Component)
  (e : Event Component) (evs : list (Event Component)).

(** While [loadOnCondition] has not been true, no observer callback calls
    the importer: visibility alone never retrieves. *)
Lemma condition_gated_waits p s evs :
  loadState_or_default p = LAZY_ON_CONDITION →
  truthy (flag_loadOnCondition s) = false →
  condition_stays_false evs = true →
  importer_calls (run p s evs) = importer_calls s.
Proof.
  intros Hst. revert s. induction evs as [|e evs IH]; intros s Hflag Hevs; [done|].
  simpl in Hevs. apply andb_true_iff in Hevs as [He Hrest].
  rewrite run_cons, IH; [|clear IH|done].
  - rewrite importer_calls_step.
    destruct e as [v|fm fc|i exports|i]; try lia.
    rewrite Hst. simpl. rewrite Hflag. lia.
  - destruct e as [v|fm fc|i exports|i]; simpl.
    + unfold onChange. rewrite shouldLoad_decision, Hst. simpl. rewrite Hflag.
      by destruct (v && onInView p).
    + by apply negb_true_iff in He.
    + by destruct (promises s !! i) as [[]|].
    + by destruct (promises s !! i) as [[]|].
Qed.



(** A re-render that makes the condition true calls nothing by itself. *)
Lemma rerender_calls_nothing p s flagMount flagCondition :
  importer_calls (step p s (Rerender flagMount flagCondition)) = importer_calls s.
Proof. done. Qed.

End ConditionGated.


(** ** Runs in which the strategies other than the default diverge *)

(** C1 on the code: nothing records that a retrieval has been started, so a
    second callback whose load-map entry is true calls the importer again.
    Under the default strategy two callbacks that report the element in view
    before the import has resolved call it twice; a forced-on-mount instance
    whose element is first reported out of view and then in view calls it
    twice, and so does a condition-gated instance whose condition is true. *)
Lemma importer_called_more_than_once :
  importer_calls
    (run (Examples.props None) (Examples.start None None)
       [OnChange true; OnChange true]) = 2
  ∧ importer_calls
      (run (Examples.props (Some LOADED_ON_MOUNT)) (Examples.start (Some true) None)
         [OnChange false; OnChange true]) = 2
  ∧ importer_calls
      (run (Examples.props (Some LAZY_ON_CONDITION)) (Examples.start None (Some true))
         [OnChange false; OnChange true]) = 2
  ∧ ¬ (importer_calls
         (run (Examples.props (Some LOADED_ON_MOUNT)) (Examples.start (Some true) None)
            [OnChange false; OnChange true]) ≤ 1)%nat.
Proof. split_and!; [done | done | done | vm_compute; lia]. Qed.

(** C3 on the code: with [loadState] omitted the strategy in effect is
    [DEFAULT] although [loadOnMount] is true, where the flags would give
    [LOADED_ON_MOUNT]; the callback reporting the element out of view then
    retrieves nothing, while it does under an explicit [LOADED_ON_MOUNT]. *)
Lemma omitted_loadState_is_DEFAULT :
  (∀ (name : string) (callback : bool),
     loadState_or_default {| exportName := name; onInView := callback; loadState := None |}
     = DEFAULT)
  ∧ loadState_or_default (Examples.props None) ≠ derived_from_flags (Some true) None
  ∧ derived_from_flags (Some true) None = LOADED_ON_MOUNT
  ∧ derived_from_flags None (Some true) = LAZY_ON_CONDITION
  ∧ importer_calls
      (run (Examples.props None) (Examples.start (Some true) None) [OnChange false]) = 0
  ∧ importer_calls
      (run (Examples.props (Some LOADED_ON_MOUNT)) (Examples.start (Some true) None)
         [OnChange false]) = 1.
Proof. by vm_compute. Qed.

(** C8 on the code: a forced-on-mount instance that has stored its component
    calls the importer again at the next observer callback, and if that
    second retrieval resolves with a module lacking the export, [Comp] falls
    back to holding no component. *)
Lemma loaded_slot_retrieves_again :
  let p := Examples.props (Some LOADED_ON_MOUNT) in
  let s := run p (Examples.start (Some true) None) [OnChange false; Fulfil 0 Examples.moduleX] in
  Comp s = Loaded "CompX"
  ∧ importer_calls s = 1
  ∧ importer_calls (step p s (OnChange true)) = 2
  ∧ Comp (run p s [OnChange true; Fulfil 1 Examples.moduleNamed]) = Undefined.
Proof. by vm_compute. Qed.


(** ** Rejections *)

Section Rejection.

Context {Component : Type}.
Implicit Types (p : UILazyInViewProps) (s : State Component)
  (e : Event Component) (evs : list (Event Component)).


(** Only a fulfilment stores a component. *)
Lemma Comp_without_Fulfil p s evs :
  forallb (λ e, match e with Fulfil _ _ => false | _ => true end) evs = true →
  Comp (run p s evs) = Comp s.
Proof.
  revert s. induction evs as [|e evs IH]; intros s H; [done|].
  simpl in H. apply andb_true_iff in H as [He Hrest].
  rewrite run_cons, IH by done.
  destruct e as [v|fm fc|i exports|i]; simpl; try done.
  - unfold onChange.
    by destruct (truthy (shouldLoad p v s)), (v && onInView p).
  - by destruct (promises s !! i) as [[]|].
Qed.

End Rejection.

Section RejectionFinal.

Context {Component : Type}.
Implicit Types (p : UILazyInViewProps) (s : State Component)
  (e : Event Component) (evs : list (Event Component)).


End RejectionFinal.


(** ** Merged refs *)

Section MergeRefsFacts.

Local Open Scope list_scope.

Context {Node : Type}.
Implicit Types (refs : list OptionalRef) (ref : OptionalRef)
  (instance : option Node) (st : RefStore Node).

Lemma mergeRefs_cons ref refs instance st :
  mergeRefs (ref :: refs) instance st = mergeRefs refs instance (update_ref instance st ref).
Proof. done. Qed.

Lemma mergeRefs_app refs1 refs2 instance st :
  mergeRefs (refs1 ++ refs2) instance st
  = mergeRefs refs2 instance (mergeRefs refs1 instance st).
Proof. unfold mergeRefs. by rewrite foldl_app. Qed.

Lemma mergeRefs_lookup refs instance st r :
  current (mergeRefs refs instance st) !! r
  = if decide (RefObject r ∈ refs) then Some instance else current st !! r.
Proof.
  revert st. induction refs as [|ref refs IH]; intros st.
  - rewrite decide_False; [done | apply not_elem_of_nil].
  - rewrite mergeRefs_cons, IH.
    destruct (decide (RefObject r ∈ refs)) as [Hin|Hnotin].
    + rewrite decide_True; [done|]. by right.
    + destruct (decide (ref = RefObject r)) as [->|Hne].
      * rewrite decide_True by left. simpl. by rewrite lookup_insert_eq.
      * rewrite decide_False.
        2:{ intros [?|?]%elem_of_cons; congruence. }
        destruct ref as [| |f|r']; simpl; try done.
        rewrite lookup_insert_ne; [done|]. congruence.
Qed.

Lemma mergeRefs_called refs instance st :
  called (mergeRefs refs instance st) = called st ++ callbacks_of refs instance.
Proof.
  revert st. induction refs as [|ref refs IH]; intros st.
  - simpl. by rewrite app_nil_r.
  - rewrite mergeRefs_cons, IH.
    destruct ref as [| |f|r]; simpl; try done.
    by rewrite <- app_assoc.
Qed.

(** X1: after an update every ref object of the list holds the instance, and
    the [current] field of every other ref object is as it was. *)
Theorem mergeRefs_sets_listed_objects refs instance st :
  (∀ r, RefObject r ∈ refs → current (mergeRefs refs instance st) !! r = Some instance)
  ∧ (∀ r, RefObject r ∉ refs →
          current (mergeRefs refs instance st) !! r = current st !! r).
Proof.
  split; intros r Hr; rewrite mergeRefs_lookup.
  - by rewrite decide_True.
  - by rewrite decide_False.
Qed.

(** X2: an update calls every callback ref of the list with the instance,
    once per occurrence and in list order, and makes no other call. *)
Theorem mergeRefs_calls_callbacks_in_order refs instance st :
  called (mergeRefs refs instance st) = called st ++ callbacks_of refs instance
  ∧ length (called (mergeRefs refs instance st))
    = (length (called st)
       + length (List.filter (λ ref, match ref with RefCallback _ => true | _ => false end)
                   refs))%nat.
Proof.
  split; [apply mergeRefs_called|].
  rewrite mergeRefs_called, length_app. f_equal.
  unfold callbacks_of.
  induction refs as [|[| |f|r] refs IH]; simpl;
    [done | exact IH | exact IH | f_equal; exact IH | exact IH].
Qed.

(** X3: [undefined] and [null] entries are skipped: the updater of a list is
    the updater of its functions and objects, and a list without any leaves
    the memory untouched (so does the empty list). *)
Theorem mergeRefs_skips_missing_refs refs instance st :
  mergeRefs refs instance st = mergeRefs (List.filter is_ref refs) instance st
  ∧ (forallb (λ ref, negb (is_ref ref)) refs = true → mergeRefs refs instance st = st).
Proof.
  split.
  - revert st. induction refs as [|[| |f|r] refs IH]; intros st;
      [done | simpl List.filter; rewrite !mergeRefs_cons; apply IH ..].
  - revert st. induction refs as [|[| |f|r] refs IH]; intros st H; try done.
    + rewrite mergeRefs_cons. by apply IH.
    + rewrite mergeRefs_cons. by apply IH.
Qed.

(** X4: of two updates through the same updater the last one decides what
    the ref objects hold (an update with [null] clears what the one before
    it set), while the callback refs see both, in order. *)
Theorem mergeRefs_last_update_wins refs instance1 instance2 st :
  current (mergeRefs refs instance2 (mergeRefs refs instance1 st))
  = current (mergeRefs refs instance2 st)
  ∧ called (mergeRefs refs instance2 (mergeRefs refs instance1 st))
    = called st ++ callbacks_of refs instance1 ++ callbacks_of refs instance2.
Proof.
  split.
  - apply map_eq. intros r. rewrite !mergeRefs_lookup.
    by destruct (decide (RefObject r ∈ refs)).
  - by rewrite !mergeRefs_called, app_assoc.
Qed.

(** X5: what the ref objects hold after an update does not depend on the
    order of the list. *)
Theorem mergeRefs_current_permutation refs refs' instance st :
  refs ≡ₚ refs' →
  current (mergeRefs refs instance st) = current (mergeRefs refs' instance st).
Proof.
  intros Hperm. apply map_eq. intros r. rewrite !mergeRefs_lookup.
  destruct (decide (RefObject r ∈ refs)) as [Hin|Hnotin].
  - rewrite decide_True; [done|]. by rewrite <- Hperm.
  - rewrite decide_False; [done|]. by rewrite <- Hperm.
Qed.

(** X6: on the wrapper [div], whatever [forwardRef] the caller passes, the
    observer's callback ref is called with the node, exactly once and before
    any call of [forwardRef]; a [forwardRef] object ends up holding the node,
    and an omitted or [null] [forwardRef] makes the updater that of the
    observer's ref alone. *)
Theorem wrapper_ref_informs_observer_first (f : nat) (forwardRef : OptionalRef)
    instance st :
  called (wrapper_ref (RefCallback f) forwardRef instance st)
  = called st ++ (f, instance) :: callbacks_of [forwardRef] instance
  ∧ (∀ r, forwardRef = RefObject r →
          current (wrapper_ref (RefCallback f) forwardRef instance st) !! r = Some instance)
  ∧ (is_ref forwardRef = false →
     wrapper_ref (RefCallback f) forwardRef instance st
     = mergeRefs [RefCallback f] instance st).
Proof.
  split_and!.
  - unfold wrapper_ref. by rewrite mergeRefs_called.
  - intros r ->. unfold wrapper_ref. rewrite mergeRefs_lookup.
    rewrite decide_True; [done|]. apply elem_of_cons. right. by left.
  - by destruct forwardRef.
Qed.

End MergeRefsFacts.

(** A callback ref, the same ref object twice, an omitted ref and another
    ref object not in the list. *)
Lemma mergeRefs_sets_listed_objects_witness :
  let st := {| current := {[ 7 := None; 9 := Some "old" ]}; called := [] |} in
  let refs := [RefCallback 1; RefObject 7; RefUndefined; RefObject 7] in
  current (mergeRefs refs (Some "div") st) !! 7 = Some (Some "div")
  ∧ current (mergeRefs refs (Some "div") st) !! 9 = Some (Some "old").
Proof.
  intros st refs. split.
  - apply (proj1 (mergeRefs_sets_listed_objects refs (Some "div") st) 7).
    apply elem_of_cons. right. by left.
  - rewrite (proj2 (mergeRefs_sets_listed_objects refs (Some "div") st) 9); [done|].
    intros H. by repeat (apply elem_of_cons in H as [?|H]; [done|]); apply elem_of_nil in H.
Defined.

Lemma mergeRefs_skips_missing_refs_witness :
  let st := {| current := {[ 7 := Some "div" ]}; called := [(1, Some "div")] |} in
  mergeRefs [RefUndefined; RefNull; RefUndefined] None st = st.
Proof.
  intros st.
  exact (proj2 (mergeRefs_skips_missing_refs [RefUndefined; RefNull; RefUndefined] None st)
           eq_refl).
Defined.

Lemma mergeRefs_current_permutation_witness :
  let st := {| current := ∅; called := [] |} in
  current (mergeRefs [RefObject 7; RefCallback 1; RefObject 8] (Some "div") st)
  = current (mergeRefs [RefCallback 1; RefObject 8; RefObject 7] (Some "div") st).
Proof.
  intros st. apply mergeRefs_current_permutation.
  change (([RefObject 7] ++ [RefCallback 1; RefObject 8])%list
          ≡ₚ ([RefCallback 1; RefObject 8] ++ [RefObject 7])%list).
  apply Permutation_app_comm.
Defined.

Lemma wrapper_ref_informs_observer_first_witness :
  let st := {| current := {[ 7 := None ]}; called := [] |} in
  current (wrapper_ref (RefCallback 1) (RefObject 7) (Some "div") st) !! 7
  = Some (Some "div")
  ∧ wrapper_ref (RefCallback 1) RefUndefined (Some "div") st
    = mergeRefs [RefCallback 1] (Some "div") st.
Proof.
  intros st. split.
  - exact (proj1 (proj2 (wrapper_ref_informs_observer_first 1 (RefObject 7) (Some "div") st))
             7 eq_refl).
  - exact (proj2 (proj2 (wrapper_ref_informs_observer_first 1 RefUndefined (Some "div") st))
             eq_refl).
Defined.

(** ** The load map and its inputs *)

(** X7: the load map records the three inputs after coercion to a boolean and
    nothing else: two inputs give the same map exactly when they agree on the
    truthiness of each field.  So an omitted flag is the flag [false], and
    different boolean triples give different maps. *)
Theorem createLoadMap_determined_by_truthiness (i j : ILazyInviewLoadMap) :
  createLoadMap i = createLoadMap j
  ↔ truthy (loadByDefault i) = truthy (loadByDefault j)
    ∧ truthy (loadOnMount i) = truthy (loadOnMount j)
    ∧ truthy (loadOnCondition i) = truthy (loadOnCondition j).
Proof.
  split.
  - intros H.
    pose proof (createLoadMap_lookup i) as Hi.
    pose proof (createLoadMap_lookup j) as Hj.
    rewrite H in Hi.
    split_and!.
    + specialize (Hi DEFAULT). specialize (Hj DEFAULT). congruence.
    + specialize (Hi LOADED_ON_MOUNT). specialize (Hj LOADED_ON_MOUNT). congruence.
    + specialize (Hi LAZY_ON_CONDITION). specialize (Hj LAZY_ON_CONDITION). congruence.
  - intros (Hd & Hm & Hc). unfold createLoadMap. by rewrite Hd, Hm, Hc.
Qed.

(** [createLoadMap({})] is [createLoadMap] of three explicit [false]. *)
Lemma createLoadMap_determined_by_truthiness_witness :
  createLoadMap {| loadByDefault := None; loadOnMount := None; loadOnCondition := None |}
  = createLoadMap {| loadByDefault := Some false; loadOnMount := Some false;
                     loadOnCondition := Some false |}.
Proof.
  apply (proj2 (createLoadMap_determined_by_truthiness
                  {| loadByDefault := None; loadOnMount := None; loadOnCondition := None |}
                  {| loadByDefault := Some false; loadOnMount := Some false;
                     loadOnCondition := Some false |})).
  by split_and!.
Defined.

(** ** More on the runs of an instance *)

Section Runs.

Context {Component : Type}.
Implicit Types (p : UILazyInViewProps) (s : State Component)
  (e : Event Component) (evs : list (Event Component)).

Lemma flags_step p s e :
  is_Rerender e = false →
  flag_loadOnMount (step p s e) = flag_loadOnMount s
  ∧ flag_loadOnCondition (step p s e) = flag_loadOnCondition s.
Proof.
  destruct e as [v|fm fc|i exports|i]; simpl; try done; intros _.
  - unfold onChange.
    by destruct (truthy (shouldLoad p v s)), (v && onInView p).
  - by destruct (promises s !! i) as [[]|].
  - by destruct (promises s !! i) as [[]|].
Qed.

(** X8: until some retrieval fulfils, the instance renders the placeholder
    and no component, whatever callbacks, re-renders and rejections it
    receives and whichever strategy is configured. *)
Theorem placeholder_until_fulfilled p flagMount flagCondition evs :
  forallb (λ e, match e with Fulfil _ _ => false | _ => true end) evs = true →
  render (run p (mount flagMount flagCondition) evs)
  = {| shows_placeholder := true; shows_component := None |}.
Proof.
  intros H. unfold render. by rewrite Comp_without_Fulfil.
Qed.

(** X9: under the default strategy the outcome of a fulfilment decides
    whether the instance retrieves again.  When the last retrieval in flight
    fulfils with a module that has the export, the component is stored for
    good: no sequence of callbacks, re-renders and settlements replaces it
    or calls the importer again.  When the export is missing, [Comp] is
    [undefined], and the next callback that reports the element in view
    calls the importer again. *)
Theorem default_outcome_of_fulfilment p s i exports :
  loadState_or_default p = DEFAULT →
  promises s !! i = Some Pending →
  (∀ j, j ≠ i → promises s !! j ≠ Some Pending) →
  (∀ c evs, exports !! exportName p = Some c →
     Comp (run p (step p s (Fulfil i exports)) evs) = Loaded c
     ∧ importer_calls (run p (step p s (Fulfil i exports)) evs) = importer_calls s)
  ∧ (exports !! exportName p = None →
     Comp (step p s (Fulfil i exports)) = Undefined
     ∧ importer_calls (step p (step p s (Fulfil i exports)) (OnChange true))
       = S (importer_calls s)).
Proof.
  intros Hd Hpending Hothers.
  assert (importer_calls (step p s (Fulfil i exports)) = importer_calls s) as Hn
    by by apply importer_calls_settled.
  split.
  - intros c evs Hc.
    destruct (default_loaded_is_terminal p (step p s (Fulfil i exports)) c evs Hd)
      as [Hcomp Hcalls].
    + by rewrite Comp_step_Fulfil, Hc.
    + intros j. simpl. rewrite Hpending. simpl.
      destruct (decide (j = i)) as [->|Hne].
      * rewrite list_lookup_insert_eq; [done|]. by eapply lookup_lt_Some.
      * rewrite list_lookup_insert_ne by done. by apply Hothers.
    + by rewrite Hcomp, Hcalls.
  - intros Hnone.
    assert (Comp (step p s (Fulfil i exports)) = Undefined) as Hc
      by by rewrite Comp_step_Fulfil, Hnone.
    split; [done|].
    change (step p (step p s (Fulfil i exports)) (OnChange true))
      with (onChange p true (step p s (Fulfil i exports))).
    rewrite importer_calls_onChange, Hd, Hc, Hn. simpl. lia.
Qed.

(** X10: a callback calls the importer at most once, and nothing else calls
    it: the number of retrievals started never exceeds the number of
    observer callbacks delivered. *)
Theorem importer_calls_bounded_by_callbacks p s evs :
  (importer_calls (run p s evs) ≤ importer_calls s + callback_count evs)%nat.
Proof.
  revert s. induction evs as [|e evs IH]; intros s.
  - unfold callback_count. simpl. lia.
  - rewrite run_cons. specialize (IH (step p s e)).
    rewrite importer_calls_step in IH.
    unfold callback_count in *. simpl.
    destruct e as [v|fm fc|i exports|i]; simpl in *; try lia.
    destruct (load_decision _ _ _ _ _); lia.
Qed.

(** X11: under [LOADED_ON_MOUNT] with [loadOnMount] true throughout, and
    under [LAZY_ON_CONDITION] with [loadOnCondition] true throughout, every
    observer callback calls the importer, in view or not, whatever [Comp]
    holds and however earlier retrievals ended. *)
Theorem importer_called_at_every_callback p s evs :
  (loadState_or_default p = LOADED_ON_MOUNT
   ∧ truthy (flag_loadOnMount s) = true ∧ mount_flag_stays_true evs = true)
  ∨ (loadState_or_default p = LAZY_ON_CONDITION
     ∧ truthy (flag_loadOnCondition s) = true ∧ condition_stays_true evs = true) →
  importer_calls (run p s evs) = (importer_calls s + callback_count evs)%nat.
Proof.
  revert s. induction evs as [|e evs IH]; intros s H.
  - unfold callback_count. simpl. lia.
  - rewrite run_cons, IH.
    + rewrite importer_calls_step. unfold callback_count. simpl.
      destruct e as [v|fm fc|i exports|i]; simpl; try lia.
      destruct H as [(Hst & Hflag & _)|(Hst & Hflag & _)];
        rewrite Hst; simpl; rewrite Hflag; lia.
    + destruct H as [(Hst & Hflag & Hevs)|(Hst & Hflag & Hevs)];
        [left|right]; simpl in Hevs; apply andb_true_iff in Hevs as [He Hrest];
        (split_and!; [done| |done]);
        (destruct (is_Rerender e) eqn:E; [by destruct e|]).
      * by rewrite (proj1 (flags_step p s e E)).
      * by rewrite (proj2 (flags_step p s e E)).
Qed.

Lemma observable_step_default p s s' e :
  loadState_or_default p = DEFAULT →
  observable s = observable s' →
  is_Rerender e = false →
  observable (step p s e) = observable (step p s' e).
Proof.
  intros Hd Hobs He. unfold observable in Hobs.
  destruct s as [c fm fc ps n u], s' as [c' fm' fc' ps' n' u']. simpl in Hobs.
  simplify_eq.
  destruct e as [v|gm gc|i exports|i]; simpl; try done.
  - unfold onChange. rewrite !shouldLoad_decision, Hd. simpl.
    by destruct (v && not_Comp c'), (v && onInView p).
  - by destruct (ps' !! i) as [[]|].
  - by destruct (ps' !! i) as [[]|].
Qed.

(** X12: under the default strategy the flags [loadOnMount] and
    [loadOnCondition] have no effect at all: whatever their values at mount
    and in later renders, [Comp], the retrievals, the [onInView] calls and
    the unhandled rejections are those of an instance that never received
    either flag. *)
Theorem default_ignores_flags p flagMount flagCondition evs :
  loadState_or_default p = DEFAULT →
  observable (run p (mount flagMount flagCondition) evs)
  = observable (run p (mount None None) (without_rerenders evs)).
Proof.
  intros Hd.
  assert (∀ s s', observable s = observable s' →
            observable (run p s evs) = observable (run p s' (without_rerenders evs)))
    as Hgen.
  { induction evs as [|e evs IH]; intros s s' Hobs; [done|].
    rewrite run_cons.
    destruct (is_Rerender e) eqn:E.
    - replace (without_rerenders (e :: evs)) with (without_rerenders evs)
        by (unfold without_rerenders; simpl; by rewrite E).
      apply IH. by destruct e.
    - replace (without_rerenders (e :: evs)) with (e :: without_rerenders evs)
        by (unfold without_rerenders; simpl; by rewrite E).
      rewrite run_cons. apply IH. by apply observable_step_default. }
  by apply Hgen.
Qed.

(** X13: when the caller passes no [onInView], nothing is ever notified. *)
Theorem onInView_omitted_never_called p s evs :
  onInView p = false →
  onInView_calls (run p s evs) = onInView_calls s.
Proof.
  intros H. rewrite onInView_calls_run, H. lia.
Qed.

End Runs.

(** A forced-on-mount instance whose first retrieval rejects and whose second
    is still pending shows the placeholder. *)
Lemma placeholder_until_fulfilled_witness :
  render (run (Examples.props (Some LOADED_ON_MOUNT)) (Examples.start (Some true) None)
            [OnChange false; Reject 0; OnChange true; Rerender (Some true) (Some true)])
  = {| shows_placeholder := true; shows_component := None |}.
Proof.
  exact (placeholder_until_fulfilled (Component := string)
           (Examples.props (Some LOADED_ON_MOUNT)) (Some true) None
           [OnChange false; Reject 0; OnChange true; Rerender (Some true) (Some true)]
           eq_refl).
Defined.

(** The import of a default-strategy instance resolves: with the default
    export the component stays through a further in-view report; with a
    module that has only a named export the next in-view report retrieves
    again. *)
Lemma default_outcome_of_fulfilment_witness :
  let p := Examples.props None in
  let s := run p (Examples.start None None) [OnChange true] in
  Comp (run p (step p s (Fulfil 0 Examples.moduleX)) [OnChange true; Rerender None None])
  = Loaded "CompX"
  ∧ importer_calls
      (run p (step p s (Fulfil 0 Examples.moduleX)) [OnChange true; Rerender None None]) = 1
  ∧ importer_calls (step p (step p s (Fulfil 0 Examples.moduleNamed)) (OnChange true)) = 2.
Proof.
  intros p s.
  assert (∀ j, j ≠ 0 → promises s !! j ≠ Some Pending) as Hothers
    by (intros [|[|j]] Hj; done).
  pose proof (default_outcome_of_fulfilment (Component := string) p s 0 Examples.moduleX
                eq_refl eq_refl Hothers) as [Hstored _].
  pose proof (default_outcome_of_fulfilment (Component := string) p s 0 Examples.moduleNamed
                eq_refl eq_refl Hothers) as [_ Hmissing].
  destruct (Hstored "CompX" [OnChange true; Rerender None None] eq_refl) as [Hc Hn].
  destruct (Hmissing eq_refl) as [_ Hagain].
  split_and!; [exact Hc | exact Hn | exact Hagain].
Defined.

(** A condition-gated instance with the condition true: three callbacks,
    three retrievals, although the first one has already stored the
    component. *)
Lemma importer_called_at_every_callback_witness :
  importer_calls
    (run (Examples.props (Some LAZY_ON_CONDITION)) (Examples.start None (Some true))
       [OnChange false; Fulfil 0 Examples.moduleX; OnChange false; OnChange true]) = 3.
Proof.
  exact (importer_called_at_every_callback (Component := string)
           (Examples.props (Some LAZY_ON_CONDITION)) (Examples.start None (Some true))
           [OnChange false; Fulfil 0 Examples.moduleX; OnChange false; OnChange true]
           (or_intror (conj eq_refl (conj eq_refl eq_refl)))).
Defined.

(** [loadOnMount] and [loadOnCondition] both true, [loadState] omitted: the
    run is that of an instance without flags. *)
Lemma default_ignores_flags_witness :
  observable
    (run (Examples.props None) (Examples.start (Some true) (Some true))
       [OnChange false; Rerender (Some true) None; OnChange true; Fulfil 0 Examples.moduleX])
  = observable
      (run (Examples.props None) (Examples.start None None)
         [OnChange false; OnChange true; Fulfil 0 Examples.moduleX]).
Proof.
  exact (default_ignores_flags (Component := string) (Examples.props None)
           (Some true) (Some true)
           [OnChange false; Rerender (Some true) None; OnChange true;
            Fulfil 0 Examples.moduleX] eq_refl).
Defined.

Lemma onInView_omitted_never_called_witness :
  onInView_calls
    (run {| exportName := "default"; onInView := false; loadState := None |}
       (Examples.start None None) [OnChange false; OnChange true]) = 0.
Proof.
  exact (onInView_omitted_never_called (Component := string)
           {| exportName := "default"; onInView := false; loadState := None |}
           (Examples.start None None) [OnChange false; OnChange true] eq_refl).
Defined.
